(** * Plate kinematics of the African plate drift tracker

    A shallow embedding of the numerical core of [mobile_prototype.py]:
    [years_between], [euler_to_vel], [predict_position] and the displacement
    magnitude computed next to every call of [predict_position]; and of the
    computations of the page built on them: the analysis of the selected
    location and its metrics, the time series, the movement trail of the map,
    the comparison of the four cities, the bearing with its compass letters,
    and the city search. Widgets, charts and text formatting are left out.

    Python's binary64 numbers are idealised as real numbers; every Python
    operation that can raise ([/], [math.sqrt], list indexing) is modelled with
    the exception it raises, in a small error monad.

    One point of the idealisation matters below. Over the reals the cosine of
    a latitude of exactly 90 or -90 degrees is 0, and the longitude step of
    [predict_position] divides by it. On binary64 [math.cos] never returns
    zero (at 90.0 it returns about 6.1e-17), so that division returns a huge
    number instead of raising. Statements about [predict_position] are
    therefore made where the cosine of the latitude is not zero. *)

From Stdlib Require Import Reals Lra Lia List ZArith Bool String Ascii.
Import ListNotations.
Open Scope R_scope.

(** ** Exceptions and the error monad *)

Inductive exn : Type :=
| ZeroDivisionError
| ValueError
| IndexError.

Inductive result (A : Type) : Type :=
| Ok (a : A)
| Raise (e : exn).
Arguments Ok {A} a.
Arguments Raise {A} e.

Definition bind {A B : Type} (m : result A) (k : A -> result B) : result B :=
  match m with
  | Ok a => k a
  | Raise e => Raise e
  end.

Notation "x <- m ;; k" := (bind m (fun x => k))
  (at level 61, m at next level, right associativity).
Notation "' ( x , y ) <- m ;; k" := (bind m (fun p => let '(x, y) := p in k))
  (at level 61, x name, y name, m at next level, right associativity).

Definition succeeds {A : Type} (m : result A) : Prop := exists a, m = Ok a.
Definition raises {A : Type} (m : result A) : Prop := exists e, m = Raise e.

(** ** Python primitives *)

(** [x / y] on floats: raises on a zero divisor. *)
Definition truediv (x y : R) : result R :=
  if Req_dec_T y 0 then Raise ZeroDivisionError else Ok (x / y).

(** [l[i]] on a list. *)
Definition getitem (l : list R) (i : nat) : result R :=
  match nth_error l i with
  | Some x => Ok x
  | None => Raise IndexError
  end.

(** [sum(f(i) for i in idx)]: left to right from 0, stopping at the first
    exception. *)
Fixpoint sum_from (acc : R) (f : nat -> result R) (idx : list nat) : result R :=
  match idx with
  | [] => Ok acc
  | i :: rest => x <- f i ;; sum_from (acc + x) f rest
  end.

Definition sum_gen (f : nat -> result R) (idx : list nat) : result R :=
  sum_from 0 f idx.

Definition range (n : nat) : list nat := seq 0 n.

Module math.
Definition radians (x : R) : R := x * (PI / 180).
Definition degrees (x : R) : R := x * (180 / PI).
Definition cos : R -> R := Rtrigo_def.cos.
Definition sin : R -> R := Rtrigo_def.sin.
(** [math.sqrt] raises "math domain error" on a negative argument. *)
Definition sqrt (x : R) : result R :=
  if Rlt_dec x 0 then Raise ValueError else Ok (R_sqrt.sqrt x).
End math.

(** ** The source functions *)

(** [years_between(d1, d2) = (d2 - d1).days / 365.25]; a date is its day
    ordinal (both datetimes are taken at midnight). *)
Definition years_between (d1 d2 : Z) : result R :=
  truediv (IZR (d2 - d1)) (36525 / 100).

Definition euler_to_vel (lat_deg lon_deg pole_lat_deg pole_lon_deg omega_deg_Myr : R)
  : result (R * R) :=
  let lat := math.radians lat_deg in
  let lon := math.radians lon_deg in
  let plat := math.radians pole_lat_deg in
  let plon := math.radians pole_lon_deg in
  omega_rad <- truediv (math.radians omega_deg_Myr) 1000000 ;;
  let R := 6371000 in
  let r := [ math.cos lat * math.cos lon;
             math.cos lat * math.sin lon;
             math.sin lat ] in
  let w := [ omega_rad * math.cos plat * math.cos plon;
             omega_rad * math.cos plat * math.sin plon;
             omega_rad * math.sin plat ] in
  v0 <- (a <- getitem w 1 ;; b <- getitem r 2 ;;
         c <- getitem w 2 ;; d <- getitem r 1 ;; Ok (a * b - c * d)) ;;
  v1 <- (a <- getitem w 2 ;; b <- getitem r 0 ;;
         c <- getitem w 0 ;; d <- getitem r 2 ;; Ok (a * b - c * d)) ;;
  v2 <- (a <- getitem w 0 ;; b <- getitem r 1 ;;
         c <- getitem w 1 ;; d <- getitem r 0 ;; Ok (a * b - c * d)) ;;
  let v := [ v0; v1; v2 ] in
  let v_m_per_yr := map (fun c => c * R) v in
  let east := [ - math.sin lon; math.cos lon; 0 ] in
  let north := [ - math.sin lat * math.cos lon;
                 - math.sin lat * math.sin lon;
                 math.cos lat ] in
  ve <- sum_gen (fun i => a <- getitem v_m_per_yr i ;;
                          b <- getitem east i ;; Ok (a * b)) (range 3) ;;
  vn <- sum_gen (fun i => a <- getitem v_m_per_yr i ;;
                          b <- getitem north i ;; Ok (a * b)) (range 3) ;;
  Ok (ve * 1000, vn * 1000).

Definition predict_position (lat lon ve_mm_yr vn_mm_yr years : R) : result (R * R) :=
  let R := 6371000 in
  ve <- truediv ve_mm_yr 1000 ;;
  vn <- truediv vn_mm_yr 1000 ;;
  dlat <- truediv (vn * years) R ;;
  dlon <- truediv (ve * years) (R * math.cos (math.radians lat)) ;;
  let lat2 := lat + math.degrees dlat in
  let lon2 := lon + math.degrees dlon in
  Ok (lat2, lon2).

(** [math.sqrt((ve * years)**2 + (vn * years)**2)], the expression bound to
    [displacement_mm] after the prediction and to [disp_t] at every sample of
    the time series. *)
Definition displacement_mm (ve vn years : R) : result R :=
  math.sqrt ((ve * years) ^ 2 + (vn * years) ^ 2).

(** ** The kinematics as the specification words it *)

Module Spec.
Definition vec3 : Type := (R * R * R)%type.

Definition cross (a b : vec3) : vec3 :=
  let '(a0, a1, a2) := a in
  let '(b0, b1, b2) := b in
  (a1 * b2 - a2 * b1, a2 * b0 - a0 * b2, a0 * b1 - a1 * b0).

Definition dot (a b : vec3) : R :=
  let '(a0, a1, a2) := a in
  let '(b0, b1, b2) := b in
  a0 * b0 + a1 * b1 + a2 * b2.

Definition scale (k : R) (a : vec3) : vec3 :=
  let '(a0, a1, a2) := a in (k * a0, k * a1, k * a2).

Definition earth_radius : R := 6371000.

(** Unit vector of a direction given in radians. *)
Definition unit (lat lon : R) : vec3 :=
  (cos lat * cos lon, cos lat * sin lon, sin lat).

Definition east_dir (lon : R) : vec3 := (- sin lon, cos lon, 0).
Definition north_dir (lat lon : R) : vec3 :=
  (- sin lat * cos lon, - sin lat * sin lon, cos lat).

(** East and north components, in mm/yr, of [earth_radius * (w x r)]. *)
Definition velocity (lat_deg lon_deg plat_deg plon_deg rate : R) : R * R :=
  let lat := math.radians lat_deg in
  let lon := math.radians lon_deg in
  let r := unit lat lon in
  let w := scale (math.radians rate / 1000000)
                 (unit (math.radians plat_deg) (math.radians plon_deg)) in
  let v := scale earth_radius (cross w r) in
  (1000 * dot v (east_dir lon), 1000 * dot v (north_dir lat lon)).

(** Linear extrapolation of a point. *)
Definition moved (lat lon ve vn t : R) : R * R :=
  (lat + math.degrees ((vn / 1000 * t) / earth_radius),
   lon + math.degrees ((ve / 1000 * t)
                       / (earth_radius * cos (math.radians lat)))).
End Spec.

(** ** Guards around the poles *)

(** [lat] lies within [eps] degrees of latitude 90 or -90. *)
Definition near_pole (eps lat : R) : Prop := Rabs (Rabs lat - 90) < eps.

(** A guard of width [eps]: every prediction from a latitude within [eps] of a
    pole raises, every other one succeeds. *)
Definition pole_guard (eps : R) : Prop :=
  forall lat lon ve vn t,
    (near_pole eps lat -> raises (predict_position lat lon ve vn t))
    /\ (~ near_pole eps lat -> succeeds (predict_position lat lon ve vn t)).

(** ** There and back *)

(** Angle, in radians, swept in [t] years at [v] mm/yr on the Earth's surface. *)
Definition arc (v t : R) : R := v / 1000 * t / 6371000.

(** [predict_position] over [t] years, then from the result over [-t] years
    with the same velocity. *)
Definition round_trip (lat lon ve vn t : R) : result (R * R) :=
  '(lat2, lon2) <- predict_position lat lon ve vn t ;;
  predict_position lat2 lon2 ve vn (- t).

(** Longitude error, in degrees, allowed to a round trip: it is of second
    order in [t] and grows as the start latitude approaches a pole. *)
Definition round_trip_tolerance (lat ve vn t : R) : R :=
  math.degrees (2 * Rabs (arc ve t) * Rabs (arc vn t)
                / math.cos (math.radians lat) ^ 2).

(** ** The page around the three functions *)

(** [math.atan2(y, x)], the angle of the point [(x, y)] in [(-pi, pi]]. *)
Definition math_atan2 (y x : R) : R :=
  if Rlt_dec 0 x then atan (y / x)
  else if Rlt_dec x 0 then
         if Rle_dec 0 y then atan (y / x) + PI else atan (y / x) - PI
  else if Rlt_dec 0 y then PI / 2
  else if Rlt_dec y 0 then - (PI / 2)
  else 0.

(** [np.linspace(start, stop, num)] with its default [endpoint=True]: [num]
    samples [i * step + start] with [step = (stop - start) / (num - 1)], the
    last one set to [stop]. *)
Definition linspace (start stop : R) (num : nat) : list R :=
  match num with
  | O => []
  | S O => [start]
  | S div =>
      let step := (stop - start) / INR div in
      map (fun i => INR i * step + start) (seq 0 div) ++ [stop]
  end.

(** The slice [l[1:-1]]. *)
Definition inner_slice (l : list R) : list R := removelast (tl l).

(** A list comprehension whose element expression can raise. *)
Fixpoint comprehension {A B : Type} (f : A -> result B) (l : list A)
  : result (list B) :=
  match l with
  | [] => Ok []
  | a :: rest => b <- f a ;; bs <- comprehension f rest ;; Ok (b :: bs)
  end.

(** The velocity of a location: from the Euler pole in mode "euler", the
    constants 20.0 and 5.0 in any other mode (the page offers "station"). *)
Definition velocity_of_mode (mode : string) (lat lon euler_lat euler_lon omega : R)
  : result (R * R) :=
  if (mode =? "euler")%string
  then euler_to_vel lat lon euler_lat euler_lon omega
  else Ok (20, 5).

(** What the block under [if start_date < end_date:] binds first. *)
Record analysis : Type := {
  an_years : R;
  an_ve : R;
  an_vn : R;
  an_lat2 : R;
  an_lon2 : R;
  an_displacement_mm : R
}.

(** The page computes the analysis only when the start date is before the end
    date; otherwise it computes nothing ([None]). *)
Definition analyse (mode : string) (start_date end_date : Z)
  (selected_lat selected_lon euler_lat euler_lon omega : R)
  : option (result analysis) :=
  if (start_date <? end_date)%Z then
    Some (years <- years_between start_date end_date ;;
          '(ve, vn) <- velocity_of_mode mode selected_lat selected_lon
                                        euler_lat euler_lon omega ;;
          '(lat2, lon2) <- predict_position selected_lat selected_lon ve vn years ;;
          d <- displacement_mm ve vn years ;;
          Ok {| an_years := years; an_ve := ve; an_vn := vn;
                an_lat2 := lat2; an_lon2 := lon2; an_displacement_mm := d |})
  else None.

(** The numbers of the "Live Analysis Results" metrics. *)
Record metrics : Type := {
  plate_speed : R;        (* math.sqrt(ve**2 + vn**2) *)
  plate_speed_delta : R;  (* abs(ve) *)
  total_movement : R;     (* displacement_mm *)
  movement_rate : R;      (* displacement_mm/years *)
  direction : R           (* math.degrees(math.atan2(vn, ve)) *)
}.

Definition live_metrics (a : analysis) : result metrics :=
  speed <- math.sqrt (an_ve a ^ 2 + an_vn a ^ 2) ;;
  rate <- truediv (an_displacement_mm a) (an_years a) ;;
  Ok {| plate_speed := speed;
        plate_speed_delta := Rabs (an_ve a);
        total_movement := an_displacement_mm a;
        movement_rate := rate;
        direction := math.degrees (math_atan2 (an_vn a) (an_ve a)) |}.

(** The loop [for t in time_points:], appending to the three lists. *)
Fixpoint time_series_loop (lat lon ve vn : R) (time_points : list R)
  (positions_lat positions_lon displacements : list R)
  : result (list R * list R * list R) :=
  match time_points with
  | [] => Ok (positions_lat, positions_lon, displacements)
  | t :: rest =>
      '(lat_t, lon_t) <- predict_position lat lon ve vn t ;;
      disp_t <- math.sqrt ((ve * t) ^ 2 + (vn * t) ^ 2) ;;
      time_series_loop lat lon ve vn rest
        (positions_lat ++ [lat_t]) (positions_lon ++ [lon_t])
        (displacements ++ [disp_t])
  end.

(** The time series over [np.linspace(0, years, 26)]. *)
Definition time_series (lat lon ve vn years : R)
  : result (list R * list R * list R) :=
  time_series_loop lat lon ve vn (linspace 0 years 26) [] [] [].

(** The "Movement Trail" of the map: the inner points of two 5-point
    [linspace]s between start and end, and the numbers of their labels
    [i*years/4] for [i] in [range(1, 4)]. *)
Definition movement_trail (selected_lat selected_lon lat2 lon2 years : R)
  : result (list R * list R * list R) :=
  let intermediate_lats := inner_slice (linspace selected_lat lat2 5) in
  let intermediate_lons := inner_slice (linspace selected_lon lon2 5) in
  labels <- comprehension (fun i => truediv (INR i * years) 4) (seq 1 3) ;;
  Ok (intermediate_lats, intermediate_lons, labels).

(** A city of [cities_data]. *)
Record city : Type := {
  city_name : string;
  city_lat : R;
  city_lon : R
}.

Definition cities_data : list city :=
  [ {| city_name := "Cairo"; city_lat := 300444 / 10000; city_lon := 312357 / 10000 |};
    {| city_name := "Cape Town"; city_lat := - (339249 / 10000); city_lon := 184241 / 10000 |};
    {| city_name := "Lagos"; city_lat := 65244 / 10000; city_lon := 33792 / 10000 |};
    {| city_name := "Nairobi"; city_lat := - (12921 / 10000); city_lon := 368219 / 10000 |} ].

(** A row of [comparison_data]. *)
Record comparison_row : Type := {
  row_city : string;            (* 'City' *)
  row_total_movement : R;       (* 'Total Movement (mm)' *)
  row_speed : R;                (* 'Speed (mm/yr)' *)
  row_selected : bool           (* 'Selected' *)
}.

(** The loop [for city in cities_data:]. *)
Fixpoint comparison_loop (mode : string) (euler_lat euler_lon omega years : R)
  (selected_name : string) (cities : list city)
  (comparison_data : list comparison_row) : result (list comparison_row) :=
  match cities with
  | [] => Ok comparison_data
  | c :: rest =>
      '(city_ve, city_vn) <- velocity_of_mode mode (city_lat c) (city_lon c)
                                              euler_lat euler_lon omega ;;
      city_disp <- math.sqrt ((city_ve * years) ^ 2 + (city_vn * years) ^ 2) ;;
      speed <- math.sqrt (city_ve ^ 2 + city_vn ^ 2) ;;
      comparison_loop mode euler_lat euler_lon omega years selected_name rest
        (comparison_data
           ++ [ {| row_city := city_name c;
                   row_total_movement := city_disp;
                   row_speed := speed;
                   row_selected := (city_name c =? selected_name)%string |} ])
  end.

Definition comparison (mode : string) (euler_lat euler_lon omega years : R)
  (selected_name : string) : result (list comparison_row) :=
  comparison_loop mode euler_lat euler_lon omega years selected_name
                  cities_data [].

(** What the loop appends for one city. *)
Definition row_of (mode : string) (elat elon omega years : R)
  (selected_name : string) (c : city) (r : comparison_row) : Prop :=
  exists ve vn,
    velocity_of_mode mode (city_lat c) (city_lon c) elat elon omega = Ok (ve, vn)
    /\ row_city r = city_name c
    /\ row_speed r = sqrt (ve ^ 2 + vn ^ 2)
    /\ row_total_movement r = Rabs years * sqrt (ve ^ 2 + vn ^ 2)
    /\ row_selected r = (city_name c =? selected_name)%string.

(** [bearing] of the detailed data: the angle of the velocity in degrees,
    moved into the non-negative range. Over the reals a negative angle plus
    360 stays below 360; on binary64 the sum can round to 360.0. *)
Definition bearing_of (ve vn : R) : R :=
  let bearing := math.degrees (math_atan2 vn ve) in
  if Rlt_dec bearing 0 then bearing + 360 else bearing.



(** ** The city search *)

(** An entry of a dictionary of cities: the name and [{"lat": .., "lon": ..}]. *)
Record coords : Type := { lat : R; lon : R }.

Definition entry (name : string) (la lo : R) : string * coords :=
  (name, {| lat := la; lon := lo |}).

Definition city_database : list (string * coords) :=
  [
    entry "Accra" (56037 / 10000) (- (1870 / 10000));
    entry "Addis Ababa" (90320 / 10000) (387403 / 10000);
    entry "Algiers" (367372 / 10000) (30865 / 10000);
    entry "Antananarivo" (- (188792 / 10000)) (475079 / 10000);
    entry "Asmara" (153229 / 10000) (389251 / 10000);
    entry "Bamako" (126392 / 10000) (- (80029 / 10000));
    entry "Bangui" (43947 / 10000) (185582 / 10000);
    entry "Banjul" (134538 / 10000) (- (165790 / 10000));
    entry "Bissau" (118637 / 10000) (- (155985 / 10000));
    entry "Brazzaville" (- (42634 / 10000)) (152429 / 10000);
    entry "Bujumbura" (- (33614 / 10000)) (293599 / 10000);
    entry "Cairo" (300444 / 10000) (312357 / 10000);
    entry "Cape Town" (- (339249 / 10000)) (184241 / 10000);
    entry "Casablanca" (335731 / 10000) (- (75898 / 10000));
    entry "Conakry" (96412 / 10000) (- (135784 / 10000));
    entry "Dakar" (147167 / 10000) (- (174677 / 10000));
    entry "Dar es Salaam" (- (67924 / 10000)) (392083 / 10000);
    entry "Djibouti" (118251 / 10000) (425903 / 10000);
    entry "Dodoma" (- (61630 / 10000)) (357516 / 10000);
    entry "Durban" (- (298579 / 10000)) (310292 / 10000);
    entry "Freetown" (84840 / 10000) (- (132299 / 10000));
    entry "Gaborone" (- (246282 / 10000)) (259231 / 10000);
    entry "Harare" (- (178292 / 10000)) (310522 / 10000);
    entry "Johannesburg" (- (262041 / 10000)) (280473 / 10000);
    entry "Kampala" (3476 / 10000) (325825 / 10000);
    entry "Khartoum" (155007 / 10000) (325599 / 10000);
    entry "Kigali" (- (19706 / 10000)) (301044 / 10000);
    entry "Kinshasa" (- (44419 / 10000)) (152663 / 10000);
    entry "Lagos" (65244 / 10000) (33792 / 10000);
    entry "Libreville" (4162 / 10000) (94673 / 10000);
    entry "Lilongwe" (- (139626 / 10000)) (337741 / 10000);
    entry "Lome" (61256 / 10000) (12255 / 10000);
    entry "Luanda" (- (88390 / 10000)) (132894 / 10000);
    entry "Lusaka" (- (153875 / 10000)) (283228 / 10000);
    entry "Malabo" (37502 / 10000) (87372 / 10000);
    entry "Maputo" (- (259692 / 10000)) (325732 / 10000);
    entry "Marrakech" (316295 / 10000) (- (79811 / 10000));
    entry "Mbabane" (- (263054 / 10000)) (311367 / 10000);
    entry "Mogadishu" (20469 / 10000) (453182 / 10000);
    entry "Monrovia" (62907 / 10000) (- (107605 / 10000));
    entry "Moroni" (- (116455 / 10000)) (433344 / 10000);
    entry "Nairobi" (- (12921 / 10000)) (368219 / 10000);
    entry "Niamey" (135116 / 10000) (21254 / 10000);
    entry "Nouakchott" (180735 / 10000) (- (159582 / 10000));
    entry "Ouagadougou" (123714 / 10000) (- (15197 / 10000));
    entry "Port Louis" (- (201619 / 10000)) (575012 / 10000);
    entry "Porto-Novo" (64969 / 10000) (26283 / 10000);
    entry "Praia" (149315 / 10000) (- (235133 / 10000));
    entry "Pretoria" (- (257479 / 10000)) (282293 / 10000);
    entry "Rabat" (340209 / 10000) (- (68416 / 10000));
    entry "Sao Tome" (1864 / 10000) (66131 / 10000);
    entry "Tripoli" (328872 / 10000) (131913 / 10000);
    entry "Tunis" (368065 / 10000) (101815 / 10000);
    entry "Victoria" (- (46796 / 10000)) (554920 / 10000);
    entry "Windhoek" (- (225609 / 10000)) (170658 / 10000);
    entry "Yaounde" (38480 / 10000) (115021 / 10000)
  ].

(** [d.keys()], in insertion order. *)
Definition keys (d : list (string * coords)) : list string := map fst d.

(** [d[k]]; [None] stands for KeyError. *)
Fixpoint lookup (d : list (string * coords)) (k : string) : option coords :=
  match d with
  | [] => None
  | (k', v) :: rest => if (k' =? k)%string then Some v else lookup rest k
  end.

(** [str.lower] on ASCII text. *)
Definition lower_char (c : ascii) : ascii :=
  let n := nat_of_ascii c in
  if ((65 <=? n) && (n <=? 90))%nat then ascii_of_nat (n + 32) else c.

Fixpoint lower (s : string) : string :=
  match s with
  | EmptyString => EmptyString
  | String c rest => String (lower_char c) (lower rest)
  end.

(** [a in b] on strings. *)
Definition contains (a b : string) : bool :=
  match index 0 a b with
  | Some _ => true
  | None => false
  end.

(** [[city for city in d.keys() if city.lower().startswith(city_name.lower())]],
    the page's [matched_cities] with [d = city_database]. *)
Definition matched_cities (d : list (string * coords)) (city_name : string)
  : list string :=
  filter (fun city => prefix (lower city_name) (lower city)) (keys d).

(** [[city for city in d.keys() if city_name.lower() in city.lower()][:5]] *)
Definition suggestions (d : list (string * coords)) (city_name : string)
  : list string :=
  firstn 5 (filter (fun city => contains (lower city_name) (lower city)) (keys d)).

(** What the search shows for a query. *)
Inductive search_view : Type :=
| NothingTyped                                  (* if city_name: is false *)
| Matches (matched : list string)               (* the select box *)
| NotFound (suggested : list string)            (* the warning, and the hints *)
| TooShort.                                     (* one or two letters, no match *)

Definition search (d : list (string * coords)) (city_name : string)
  : search_view :=
  match city_name with
  | EmptyString => NothingTyped
  | _ =>
      match matched_cities d city_name with
      | (_ :: _) as matched => Matches matched
      | [] => if (2 <? String.length city_name)%nat
              then NotFound (suggestions d city_name)
              else TooShort
      end
  end.

(** The button "Use <city>": the coordinates stored for the chosen name. *)
Definition use_city (d : list (string * coords)) (selected_city : string)
  : option (R * R * string) :=
  match lookup d selected_city with
  | Some v => Some (lat v, lon v, selected_city)
  | None => None
  end.

(** ** Basic facts about the primitives *)

Lemma truediv_ok (x y : R) : y <> 0 -> truediv x y = Ok (x / y).
Proof.
  intros Hy. unfold truediv. destruct (Req_dec_T y 0) as [E | _]; [contradiction | reflexivity].
Qed.

Lemma truediv_zero (x : R) : truediv x 0 = Raise ZeroDivisionError.
Proof.
  unfold truediv. destruct (Req_dec_T 0 0) as [_ | N]; [reflexivity | now elim N].
Qed.

Lemma math_sqrt_ok (x : R) : 0 <= x -> math.sqrt x = Ok (sqrt x).
Proof.
  intros Hx. unfold math.sqrt. destruct (Rlt_dec x 0) as [L | _]; [lra | reflexivity].
Qed.

Example getitem_past_end : getitem [1; 2; 3] 3 = Raise IndexError.
Proof. reflexivity. Qed.

Example math_sqrt_negative : math.sqrt (-1) = Raise ValueError.
Proof.
  unfold math.sqrt. destruct (Rlt_dec (-1) 0) as [_ | N]; [reflexivity | lra].
Qed.

(** The default span of the page, 2000-01-01 to 2025-08-15, is 9358 days. *)
Example years_between_default :
  years_between 730120 739478 = Ok (9358 / (36525 / 100)).
Proof. unfold years_between. rewrite truediv_ok by lra. reflexivity. Qed.

Lemma radians_degrees (x : R) : math.radians (math.degrees x) = x.
Proof.
  unfold math.radians, math.degrees. pose proof PI_neq0. field. assumption.
Qed.

Lemma radians_plus (x y : R) :
  math.radians (x + y) = math.radians x + math.radians y.
Proof. unfold math.radians. ring. Qed.

Lemma radians_90 : math.radians 90 = PI / 2.
Proof. unfold math.radians. field. Qed.

Lemma radians_0 : math.radians 0 = 0.
Proof. unfold math.radians. ring. Qed.

(** A latitude strictly between the poles has a positive cosine. *)
Lemma cos_radians_pos (lat : R) :
  -90 < lat < 90 -> 0 < math.cos (math.radians lat).
Proof.
  intros [Hlo Hhi]. unfold math.cos, math.radians.
  pose proof PI_RGT_0 as Hpi.
  apply cos_gt_0; nra.
Qed.

Lemma sum_squares_nonneg (a b : R) : 0 <= a ^ 2 + b ^ 2.
Proof. nra. Qed.

(** Runs the constant divisions and the list accesses of a function body. *)
Ltac run_body :=
  repeat (rewrite truediv_ok by lra; cbn [bind]);
  cbn [bind getitem nth_error sum_gen sum_from range seq map].

(** ** The velocity model *)

Lemma sin_sq (x : R) : sin x * sin x = 1 - cos x * cos x.
Proof. pose proof (sin2_cos2 x) as H. unfold Rsqr in H. lra. Qed.

(** Closed form of the two components: with [w] the rate in radians per year,
    east is [R w (sin plat cos lat - cos plat sin lat cos (lon - plon))] and
    north is [R w cos plat sin (lon - plon)], in mm/yr. *)
Lemma euler_to_vel_closed_form (lat_deg lon_deg plat_deg plon_deg rate : R) :
  let lat := math.radians lat_deg in
  let lon := math.radians lon_deg in
  let plat := math.radians plat_deg in
  let plon := math.radians plon_deg in
  let w := math.radians rate / 1000000 in
  euler_to_vel lat_deg lon_deg plat_deg plon_deg rate
  = Ok (1000 * (6371000 * w
                * (sin plat * cos lat - cos plat * sin lat * cos (lon - plon))),
        1000 * (6371000 * w * (cos plat * sin (lon - plon)))).
Proof.
  intros lat lon plat plon w.
  unfold euler_to_vel. run_body. unfold math.cos, math.sin.
  fold lat lon plat plon w.
  rewrite cos_minus, sin_minus.
  f_equal. f_equal.
  - ring [(sin_sq lon)].
  - ring [(sin_sq lat)].
Qed.

(** C1: for every point and every Euler pole, [euler_to_vel] raises nothing and
    returns the east and north components, in mm/yr, of [v = w x r] scaled by
    the Earth radius 6,371,000 m, with [r], [w] and the local east and north
    directions as the specification gives them. *)
Theorem euler_to_vel_is_cross_product
  (lat_deg lon_deg plat_deg plon_deg rate : R) :
  euler_to_vel lat_deg lon_deg plat_deg plon_deg rate
  = Ok (Spec.velocity lat_deg lon_deg plat_deg plon_deg rate).
Proof.
  unfold euler_to_vel. run_body.
  unfold Spec.velocity, Spec.unit, Spec.scale, Spec.cross, Spec.dot,
    Spec.east_dir, Spec.north_dir, Spec.earth_radius, math.cos, math.sin.
  f_equal. f_equal; ring.
Qed.

(** C8: a point on the equator (latitude 0, any longitude) moved by a pole at
    latitude 90 (any pole longitude, any rate) has north component exactly 0:
    the velocity is purely eastward or westward, of size [R w] with the sign of
    the rate. *)
Theorem euler_to_vel_equator_north_pole (lon_deg plon_deg rate : R) :
  euler_to_vel 0 lon_deg 90 plon_deg rate
  = Ok (1000 * (6371000 * (math.radians rate / 1000000)), 0).
Proof.
  rewrite euler_to_vel_closed_form.
  rewrite radians_90, radians_0, cos_PI2, sin_PI2, cos_0, sin_0.
  f_equal. f_equal; ring.
Qed.

(** ** The position predictor *)

(** The body of [predict_position] away from a zero cosine. *)
Lemma predict_position_runs (lat lon ve vn years : R) :
  math.cos (math.radians lat) <> 0 ->
  predict_position lat lon ve vn years
  = Ok (lat + math.degrees (vn / 1000 * years / 6371000),
        lon + math.degrees
                (ve / 1000 * years / (6371000 * math.cos (math.radians lat)))).
Proof.
  intros Hc. unfold predict_position. run_body.
  reflexivity.
Qed.

(** In exact arithmetic the longitude step divides by zero when the cosine of
    the latitude vanishes. *)
Lemma predict_position_zero_cos (lat lon ve vn years : R) :
  math.cos (math.radians lat) = 0 ->
  predict_position lat lon ve vn years = Raise ZeroDivisionError.
Proof.
  intros Hc. unfold predict_position. run_body.
  rewrite Hc, Rmult_0_r, truediv_zero. reflexivity.
Qed.

Lemma cos_radians_0 : math.cos (math.radians 0) = 1.
Proof. rewrite radians_0. apply cos_0. Qed.

Lemma cos_radians_0_neq : math.cos (math.radians 0) <> 0.
Proof. rewrite cos_radians_0. lra. Qed.

(** C2: wherever the cosine of the latitude is not zero, [predict_position]
    returns [(lat + degrees ((vn/1000 * t) / R),
              lon + degrees ((ve/1000 * t) / (R * cos (radians lat))))]
    with R = 6,371,000: both changes are added to the original coordinates, a
    linear extrapolation. *)
Theorem predict_position_linear (lat lon ve vn t : R) :
  math.cos (math.radians lat) <> 0 ->
  predict_position lat lon ve vn t = Ok (Spec.moved lat lon ve vn t).
Proof.
  intros Hc. rewrite predict_position_runs by exact Hc.
  unfold Spec.moved, Spec.earth_radius, math.cos. reflexivity.
Qed.

Lemma predict_position_linear_witness :
  math.cos (math.radians 0) <> 0
  /\ predict_position 0 0 20 5 1 = Ok (Spec.moved 0 0 20 5 1).
Proof.
  split; [exact cos_radians_0_neq | ].
  apply (predict_position_linear 0 0 20 5 1). exact cos_radians_0_neq.
Defined.

(** ** The displacement magnitude *)

(** C3: the displacement magnitude never raises and equals
    [sqrt ((ve * t)^2 + (vn * t)^2)]; it is a function of the velocity and the
    elapsed time alone, not of the start and end points. *)
Theorem displacement_mm_euclidean (ve vn t : R) :
  displacement_mm ve vn t = Ok (sqrt ((ve * t) ^ 2 + (vn * t) ^ 2)).
Proof.
  unfold displacement_mm. apply math_sqrt_ok, sum_squares_nonneg.
Qed.

Lemma sqrt_scaled (ve vn t : R) :
  sqrt ((ve * t) ^ 2 + (vn * t) ^ 2) = Rabs t * sqrt (ve ^ 2 + vn ^ 2).
Proof.
  replace ((ve * t) ^ 2 + (vn * t) ^ 2) with (Rsqr t * (ve ^ 2 + vn ^ 2))
    by (unfold Rsqr; ring).
  rewrite sqrt_mult_alt by apply Rle_0_sqr.
  rewrite sqrt_Rsqr_abs. reflexivity.
Qed.

(** C10: for every velocity and every elapsed time, negative ones included,
    the displacement magnitude is [|t| * sqrt (ve^2 + vn^2)]; it is therefore
    never negative and the same at [-t] as at [t]. *)
Theorem displacement_mm_abs_time (ve vn t : R) :
  displacement_mm ve vn t = Ok (Rabs t * sqrt (ve ^ 2 + vn ^ 2))
  /\ 0 <= Rabs t * sqrt (ve ^ 2 + vn ^ 2)
  /\ displacement_mm ve vn (- t) = displacement_mm ve vn t.
Proof.
  unfold displacement_mm.
  rewrite !math_sqrt_ok by apply sum_squares_nonneg.
  rewrite !sqrt_scaled, Rabs_Ropp. repeat split.
  apply Rmult_le_pos; [apply Rabs_pos | apply sqrt_pos].
Qed.

(** C7: for a fixed velocity the displacement magnitude does not decrease with
    the elapsed time on [t >= 0]. *)
Theorem displacement_mm_monotone (ve vn t1 t2 : R) :
  0 <= t1 -> t1 <= t2 ->
  exists d1 d2,
    displacement_mm ve vn t1 = Ok d1
    /\ displacement_mm ve vn t2 = Ok d2
    /\ d1 <= d2.
Proof.
  intros H0 H12. unfold displacement_mm.
  rewrite !math_sqrt_ok by apply sum_squares_nonneg.
  eexists; eexists; repeat split.
  rewrite !sqrt_scaled, !Rabs_pos_eq by lra.
  apply Rmult_le_compat_r; [apply sqrt_pos | exact H12].
Qed.

Lemma displacement_mm_monotone_witness :
  0 <= 1 /\ 1 <= 2
  /\ exists d1 d2,
       displacement_mm 20 5 1 = Ok d1
       /\ displacement_mm 20 5 2 = Ok d2
       /\ d1 <= d2.
Proof.
  split; [lra | split; [lra | ]].
  apply (displacement_mm_monotone 20 5 1 2); lra.
Defined.

(** C5: at elapsed time 0 [predict_position] returns the point unchanged
    (wherever the cosine of the latitude is not zero), and the displacement
    magnitude at elapsed time 0 is 0 for every velocity. *)
Theorem zero_elapsed_identity (lat lon ve vn : R) :
  math.cos (math.radians lat) <> 0 ->
  predict_position lat lon ve vn 0 = Ok (lat, lon)
  /\ displacement_mm ve vn 0 = Ok 0.
Proof.
  intros Hc. split.
  - rewrite predict_position_runs by exact Hc.
    unfold math.degrees, Rdiv. do 2 f_equal; ring.
  - unfold displacement_mm. rewrite math_sqrt_ok by apply sum_squares_nonneg.
    f_equal. rewrite sqrt_scaled, Rabs_R0. ring.
Qed.

Lemma zero_elapsed_identity_witness :
  math.cos (math.radians 0) <> 0
  /\ predict_position 0 31 20 5 0 = Ok (0, 31)
  /\ displacement_mm 20 5 0 = Ok 0.
Proof.
  split; [exact cos_radians_0_neq | ].
  apply (zero_elapsed_identity 0 31 20 5). exact cos_radians_0_neq.
Defined.

(** ** Behaviour next to the poles *)

(** C4, as amended: [predict_position] has no guard around the poles. For
    every latitude strictly between -90 and 90, however close to a pole, it
    raises nothing and returns the linear extrapolation. *)
Theorem predict_position_no_pole_guard (lat lon ve vn t : R) :
  -90 < lat < 90 ->
  predict_position lat lon ve vn t = Ok (Spec.moved lat lon ve vn t).
Proof.
  intros Hlat. pose proof (cos_radians_pos lat Hlat) as Hpos.
  rewrite predict_position_runs by lra. reflexivity.
Qed.

Lemma predict_position_no_pole_guard_witness :
  -90 < 90 - 1 / 1000000 < 90
  /\ predict_position (90 - 1 / 1000000) 31 20 5 25
     = Ok (Spec.moved (90 - 1 / 1000000) 31 20 5 25).
Proof.
  split; [lra | ].
  apply (predict_position_no_pole_guard (90 - 1 / 1000000) 31 20 5 25). lra.
Defined.

(** C4, as stated, fails: no epsilon neighbourhood of the poles is guarded,
    because inside any of them there is a latitude at which the prediction
    returns a value. *)
Lemma no_pole_guard_exists : ~ exists eps, 0 < eps /\ pole_guard eps.
Proof.
  intros (eps & Heps & Hguard).
  set (d := Rmin eps 1 / 2).
  assert (Hd : 0 < d /\ d < eps /\ d < 1).
  { unfold d. pose proof (Rmin_l eps 1). pose proof (Rmin_r eps 1).
    assert (0 < Rmin eps 1) by (apply Rmin_glb_lt; lra). lra. }
  destruct (Hguard (90 - d) 0 0 0 0) as [Hraise _].
  destruct Hraise as [e He].
  - unfold near_pole. rewrite (Rabs_pos_eq (90 - d)) by lra.
    replace (90 - d - 90) with (- d) by ring.
    rewrite Rabs_Ropp, Rabs_pos_eq; lra.
  - assert (Hc : 0 < math.cos (math.radians (90 - d)))
      by (apply cos_radians_pos; lra).
    rewrite predict_position_runs in He by lra. discriminate He.
Qed.

(** ** Degenerate time spans *)

(** C9: when the end date is not after the start date, [years_between] gives a
    zero or negative number of years; [euler_to_vel] does not take the time and
    succeeds; [predict_position] (wherever the cosine of the latitude is not
    zero) succeeds with the linear extrapolation, whose step is the opposite of
    the step forward over the same length of time; and the displacement
    magnitude succeeds. *)
Theorem degenerate_span_defined
  (start stop : Z) (lat lon plat plon rate ve vn : R) :
  (stop <= start)%Z ->
  math.cos (math.radians lat) <> 0 ->
  exists years,
    years_between start stop = Ok years
    /\ years <= 0
    /\ succeeds (euler_to_vel lat lon plat plon rate)
    /\ predict_position lat lon ve vn years = Ok (Spec.moved lat lon ve vn years)
    /\ fst (Spec.moved lat lon ve vn years) - lat
       = - (fst (Spec.moved lat lon ve vn (- years)) - lat)
    /\ snd (Spec.moved lat lon ve vn years) - lon
       = - (snd (Spec.moved lat lon ve vn (- years)) - lon)
    /\ succeeds (displacement_mm ve vn years).
Proof.
  intros Hspan Hc.
  exists (IZR (stop - start) / (36525 / 100)).
  split; [unfold years_between; apply truediv_ok; lra | ].
  split.
  { assert (IZR (stop - start) <= 0) by (apply IZR_le; lia).
    assert (0 < / (36525 / 100)) by (apply Rinv_0_lt_compat; lra).
    unfold Rdiv. nra. }
  split.
  { eexists. apply euler_to_vel_closed_form. }
  split; [rewrite predict_position_runs by exact Hc; reflexivity | ].
  split; [unfold Spec.moved, math.degrees, Rdiv; cbn [fst]; ring | ].
  split; [unfold Spec.moved, math.degrees, Rdiv; cbn [snd]; ring | ].
  eexists. unfold displacement_mm. apply math_sqrt_ok, sum_squares_nonneg.
Qed.

Lemma degenerate_span_defined_witness :
  (730120 <= 739478)%Z
  /\ math.cos (math.radians 0) <> 0
  /\ exists years,
       years_between 739478 730120 = Ok years
       /\ years <= 0
       /\ succeeds (euler_to_vel 0 31 (-2) 31 (1 / 4))
       /\ predict_position 0 31 20 5 years = Ok (Spec.moved 0 31 20 5 years)
       /\ fst (Spec.moved 0 31 20 5 years) - 0
          = - (fst (Spec.moved 0 31 20 5 (- years)) - 0)
       /\ snd (Spec.moved 0 31 20 5 years) - 31
          = - (snd (Spec.moved 0 31 20 5 (- years)) - 31)
       /\ succeeds (displacement_mm 20 5 years).
Proof.
  split; [lia | split; [exact cos_radians_0_neq | ]].
  apply (degenerate_span_defined 739478 730120 0 31 (-2) 31 (1 / 4) 20 5);
    [lia | exact cos_radians_0_neq].
Defined.

(** ** Round trip *)

Lemma Rabs_sin_le (x : R) : Rabs (sin x) <= Rabs x.
Proof.
  assert (Hpos : forall y, 0 <= y -> Rabs (sin y) <= y).
  { intros y [Hy | <-].
    - apply Rabs_le. split.
      + destruct (Rlt_dec y PI) as [Hlt | Hge].
        * pose proof (sin_gt_0 y Hy Hlt). lra.
        * pose proof (SIN_bound y). pose proof PI2_1. lra.
      + left. apply sin_lt_x. exact Hy.
    - rewrite sin_0, Rabs_R0. lra. }
  destruct (Rle_dec 0 x) as [Hx | Hx].
  - rewrite (Rabs_pos_eq x) by exact Hx. apply Hpos, Hx.
  - rewrite <- (Rabs_Ropp (sin x)), <- sin_neg, <- (Rabs_Ropp x).
    rewrite (Rabs_pos_eq (- x)) by lra. apply Hpos. lra.
Qed.

Lemma Rabs_sin_le_1 (x : R) : Rabs (sin x) <= 1.
Proof. apply Rabs_le. pose proof (SIN_bound x). lra. Qed.

(** The cosine is 1-Lipschitz. *)
Lemma cos_lipschitz (a b : R) : Rabs (cos a - cos b) <= Rabs (a - b).
Proof.
  rewrite form2, !Rabs_mult.
  replace (Rabs (-2)) with 2 by (rewrite Rabs_left; lra).
  pose proof (Rabs_sin_le ((a - b) / 2)) as H1.
  pose proof (Rabs_sin_le_1 ((a + b) / 2)) as H2.
  pose proof (Rabs_pos (sin ((a - b) / 2))).
  pose proof (Rabs_pos (sin ((a + b) / 2))).
  assert (Hhalf : Rabs ((a - b) / 2) = Rabs (a - b) / 2).
  { unfold Rdiv. rewrite Rabs_mult, (Rabs_pos_eq (/ 2)) by lra. reflexivity. }
  rewrite Hhalf in H1. nra.
Qed.

(** A quotient bound: moving a nonzero denominator [c] by at most [u], with
    [u] at most half of [|c|], moves [1/c] by at most [2u / c^2]. *)
Lemma inv_shift_bound (c c2 u : R) :
  c <> 0 -> Rabs (c2 - c) <= u -> u <= Rabs c / 2 ->
  c2 <> 0 /\ Rabs (/ c - / c2) <= 2 * u / c ^ 2.
Proof.
  intros Hc Hd Hu.
  assert (Ha : 0 < Rabs c) by (apply Rabs_pos_lt; exact Hc).
  assert (Hb : Rabs c / 2 <= Rabs c2).
  { pose proof (Rabs_triang_inv c c2) as Ht.
    rewrite (Rabs_minus_sym c c2) in Ht. lra. }
  assert (Hc2 : c2 <> 0).
  { intros ->. rewrite Rabs_R0 in Hb. lra. }
  split; [exact Hc2 | ].
  replace (/ c - / c2) with ((c2 - c) * / (c * c2)) by (field; split; assumption).
  rewrite Rabs_mult, Rabs_inv, Rabs_mult, <- (pow2_abs c).
  set (a := Rabs c) in *. set (b := Rabs c2) in *. set (x := Rabs (c2 - c)) in *.
  assert (Hx : 0 <= x) by apply Rabs_pos.
  assert (Hbpos : 0 < b) by lra.
  assert (Hgap : 2 * u / a ^ 2 - x * / (a * b)
                 = (2 * u * b - x * a) * / (a * a * b)) by (field; lra).
  assert (0 < / (a * a * b))
    by (apply Rinv_0_lt_compat; repeat apply Rmult_lt_0_compat; assumption).
  assert (0 <= 2 * u * b - x * a) by nra.
  assert (0 <= (2 * u * b - x * a) * / (a * a * b)) by (apply Rmult_le_pos; lra).
  lra.
Qed.

(** C6: from a latitude whose cosine is not zero, and for a time small enough
    that the latitude step is at most half of that cosine (in radians), going
    forward over [t] and back over [-t] raises nothing, restores the latitude
    and leaves the longitude within [round_trip_tolerance] of the original. *)
Theorem round_trip_within_tolerance (lat lon ve vn t : R) :
  math.cos (math.radians lat) <> 0 ->
  Rabs (arc vn t) <= Rabs (math.cos (math.radians lat)) / 2 ->
  exists lon3,
    round_trip lat lon ve vn t = Ok (lat, lon3)
    /\ Rabs (lon3 - lon) <= round_trip_tolerance lat ve vn t.
Proof.
  intros Hc Hsmall.
  unfold round_trip. rewrite predict_position_runs by exact Hc. cbn [bind].
  fold (arc vn t).
  set (lat2 := lat + math.degrees (arc vn t)).
  set (c := math.cos (math.radians lat)) in *.
  set (c2 := math.cos (math.radians lat2)).
  assert (Hstep : Rabs (c2 - c) <= Rabs (arc vn t)).
  { unfold c2, c, lat2, math.cos.
    rewrite radians_plus, radians_degrees.
    eapply Rle_trans; [apply cos_lipschitz | ].
    right. f_equal. ring. }
  destruct (inv_shift_bound c c2 (Rabs (arc vn t)) Hc Hstep Hsmall) as [Hc2 Hinv].
  rewrite predict_position_runs by exact Hc2. fold c2.
  eexists. split.
  - f_equal. f_equal. unfold lat2, arc, math.degrees, Rdiv. ring.
  - unfold round_trip_tolerance. fold c.
    replace (lon + math.degrees (ve / 1000 * t / (6371000 * c))
             + math.degrees (ve / 1000 * - t / (6371000 * c2)) - lon)
      with (180 / PI * (arc ve t * (/ c - / c2)))
      by (unfold math.degrees, arc; pose proof PI_neq0; field; repeat split; assumption).
    unfold math.degrees.
    pose proof PI_RGT_0 as Hpi.
    assert (Hk : 0 < 180 / PI) by (apply Rdiv_lt_0_compat; lra).
    rewrite !Rabs_mult, (Rabs_pos_eq (180 / PI)) by lra.
    pose proof (Rabs_pos (arc ve t)) as He.
    assert (Rabs (arc ve t) * Rabs (/ c - / c2)
            <= Rabs (arc ve t) * (2 * Rabs (arc vn t) / c ^ 2))
      by (apply Rmult_le_compat_l; assumption).
    replace (2 * Rabs (arc ve t) * Rabs (arc vn t) / c ^ 2 * (180 / PI))
      with (180 / PI * (Rabs (arc ve t) * (2 * Rabs (arc vn t) / c ^ 2)))
      by (unfold Rdiv; ring).
    apply Rmult_le_compat_l; lra.
Qed.

Lemma round_trip_within_tolerance_witness :
  math.cos (math.radians 0) <> 0
  /\ Rabs (arc 5 1) <= Rabs (math.cos (math.radians 0)) / 2
  /\ exists lon3,
       round_trip 0 31 20 5 1 = Ok (0, lon3)
       /\ Rabs (lon3 - 31) <= round_trip_tolerance 0 20 5 1.
Proof.
  assert (Hsmall : Rabs (arc 5 1) <= Rabs (math.cos (math.radians 0)) / 2).
  { rewrite cos_radians_0, Rabs_R1. unfold arc.
    rewrite Rabs_pos_eq; lra. }
  split; [exact cos_radians_0_neq | split; [exact Hsmall | ]].
  apply (round_trip_within_tolerance 0 31 20 5 1);
    [exact cos_radians_0_neq | exact Hsmall].
Defined.

(** ** More on the velocity model *)

Lemma radians_180 : math.radians 180 = PI.
Proof. unfold math.radians. field. Qed.

Lemma radians_360 : math.radians 360 = 2 * PI.
Proof. unfold math.radians. field. Qed.

Lemma radians_opp (x : R) : math.radians (- x) = - math.radians x.
Proof. unfold math.radians. ring. Qed.

Lemma radians_mult (k x : R) : math.radians (k * x) = k * math.radians x.
Proof. unfold math.radians. ring. Qed.

(** X1: a zero rotation rate gives the zero velocity at every point, for every
    pole. *)
Theorem euler_to_vel_zero_rate (lat lon plat plon : R) :
  euler_to_vel lat lon plat plon 0 = Ok (0, 0).
Proof.
  rewrite euler_to_vel_closed_form, radians_0.
  f_equal. f_equal; unfold Rdiv; ring.
Qed.

(** X2: the velocity is linear in the rotation rate: multiplying the rate by
    [k] multiplies both components by [k]; in particular the opposite rate
    gives the opposite velocity. *)
Theorem euler_to_vel_scales_with_rate (lat lon plat plon rate k : R) :
  exists ve vn,
    euler_to_vel lat lon plat plon rate = Ok (ve, vn)
    /\ euler_to_vel lat lon plat plon (k * rate) = Ok (k * ve, k * vn)
    /\ euler_to_vel lat lon plat plon (- rate) = Ok (- ve, - vn).
Proof.
  do 2 eexists. rewrite !euler_to_vel_closed_form.
  split; [reflexivity | ].
  rewrite radians_mult, radians_opp.
  split; f_equal; f_equal; unfold Rdiv; ring.
Qed.

(** X3: the speed is the rate times the distance to the rotation axis: with
    [w] the rate in radians per year and [d] the cosine of the angle between
    the point and the pole, [ve^2 + vn^2 = (1000 R w)^2 (1 - d^2)]; hence the
    speed never exceeds [1000 R |w|] mm/yr. *)
Theorem euler_to_vel_speed (lat_deg lon_deg plat_deg plon_deg rate : R) :
  let lat := math.radians lat_deg in
  let lon := math.radians lon_deg in
  let plat := math.radians plat_deg in
  let plon := math.radians plon_deg in
  let w := math.radians rate / 1000000 in
  let d := sin plat * sin lat + cos plat * cos lat * cos (lon - plon) in
  exists ve vn,
    euler_to_vel lat_deg lon_deg plat_deg plon_deg rate = Ok (ve, vn)
    /\ ve ^ 2 + vn ^ 2 = (1000 * 6371000 * w) ^ 2 * (1 - d ^ 2)
    /\ sqrt (ve ^ 2 + vn ^ 2) <= 1000 * 6371000 * Rabs w.
Proof.
  intros lat lon plat plon w d.
  do 2 eexists. rewrite euler_to_vel_closed_form.
  fold lat lon plat plon w.
  split; [reflexivity | ].
  set (A := sin plat * cos lat - cos plat * sin lat * cos (lon - plon)).
  set (B := cos plat * sin (lon - plon)).
  assert (Hid : A ^ 2 + B ^ 2 = 1 - d ^ 2).
  { unfold A, B, d.
    ring [(sin_sq plat) (sin_sq lat) (sin_sq (lon - plon))]. }
  assert (Hsq : (1000 * (6371000 * w * A)) ^ 2 + (1000 * (6371000 * w * B)) ^ 2
                = (1000 * 6371000 * w) ^ 2 * (1 - d ^ 2)).
  { rewrite <- Hid. ring. }
  split; [exact Hsq | ].
  rewrite Hsq.
  assert (Hd : 0 <= 1 - d ^ 2) by (rewrite <- Hid; nra).
  assert (Hle : (1000 * 6371000 * w) ^ 2 * (1 - d ^ 2)
                <= (1000 * 6371000 * Rabs w) ^ 2).
  { replace ((1000 * 6371000 * Rabs w) ^ 2)
      with ((1000 * 6371000 * w) ^ 2)
      by (rewrite !Rpow_mult_distr, pow2_abs; reflexivity).
    assert (0 <= (1000 * 6371000 * w) ^ 2) by nra. nra. }
  apply sqrt_le_1_alt in Hle.
  rewrite (sqrt_pow2 (1000 * 6371000 * Rabs w)) in Hle; [exact Hle | ].
  pose proof (Rabs_pos w). lra.
Qed.

(** X4: a point on the rotation axis does not move: the velocity is zero at
    the pole itself and at its antipode, whatever the rate. *)
Theorem euler_to_vel_on_axis (plat plon rate : R) :
  euler_to_vel plat plon plat plon rate = Ok (0, 0)
  /\ euler_to_vel (- plat) (plon + 180) plat plon rate = Ok (0, 0).
Proof.
  split; rewrite euler_to_vel_closed_form.
  - replace (math.radians plon - math.radians plon) with 0 by ring.
    rewrite cos_0, sin_0. f_equal. f_equal; ring.
  - rewrite radians_opp, radians_plus, radians_180.
    replace (math.radians plon + PI - math.radians plon) with PI by ring.
    rewrite cos_PI, sin_PI, cos_neg, sin_neg. f_equal. f_equal; ring.
Qed.

(** X5: the velocity depends on the two longitudes only through their
    difference: turning the point and the pole by the same angle about the
    Earth's axis changes nothing. *)
Theorem euler_to_vel_longitude_shift (lat lon plat plon rate shift : R) :
  euler_to_vel lat (lon + shift) plat (plon + shift) rate
  = euler_to_vel lat lon plat plon rate.
Proof.
  rewrite !euler_to_vel_closed_form, !radians_plus.
  replace (math.radians lon + math.radians shift
           - (math.radians plon + math.radians shift))
    with (math.radians lon - math.radians plon) by ring.
  reflexivity.
Qed.

(** X6: a pole and its antipode with the opposite rate describe the same
    rotation: they give the same velocity at every point. *)
Theorem euler_to_vel_antipodal_pole (lat lon plat plon rate : R) :
  euler_to_vel lat lon (- plat) (plon + 180) (- rate)
  = euler_to_vel lat lon plat plon rate.
Proof.
  rewrite !euler_to_vel_closed_form, !radians_opp, radians_plus, radians_180.
  replace (math.radians lon - (math.radians plon + PI))
    with (math.radians lon - math.radians plon - PI) by ring.
  rewrite (cos_minus _ PI), (sin_minus _ PI), cos_PI, sin_PI, cos_neg, sin_neg.
  f_equal. f_equal; unfold Rdiv; ring.
Qed.

(** X7: the longitude of the point is only used modulo 360 degrees. *)
Theorem euler_to_vel_longitude_period (lat lon plat plon rate : R) :
  euler_to_vel lat (lon + 360) plat plon rate
  = euler_to_vel lat lon plat plon rate.
Proof.
  rewrite !euler_to_vel_closed_form, radians_plus, radians_360.
  replace (math.radians lon + 2 * PI - math.radians plon)
    with (math.radians lon - math.radians plon + 2 * PI) by ring.
  rewrite (cos_plus _ (2 * PI)), (sin_plus _ (2 * PI)), cos_2PI, sin_2PI.
  f_equal. f_equal; ring.
Qed.

(** ** More on the position predictor *)

(** X8: from a fixed start the prediction is linear in the elapsed time: the
    point predicted for [s * t] divides the segment from the start to the
    point predicted for [t] in the ratio [s]. *)
Theorem predict_position_interpolates (lat lon ve vn t s : R) :
  math.cos (math.radians lat) <> 0 ->
  exists lat2 lon2,
    predict_position lat lon ve vn t = Ok (lat2, lon2)
    /\ predict_position lat lon ve vn (s * t)
       = Ok (lat + s * (lat2 - lat), lon + s * (lon2 - lon)).
Proof.
  intros Hc. do 2 eexists.
  rewrite !predict_position_runs by exact Hc.
  split; [reflexivity | ].
  unfold math.degrees, Rdiv. f_equal. f_equal; ring.
Qed.

Lemma predict_position_interpolates_witness :
  math.cos (math.radians 0) <> 0
  /\ exists lat2 lon2,
       predict_position 0 31 20 5 8 = Ok (lat2, lon2)
       /\ predict_position 0 31 20 5 (1 / 4 * 8)
          = Ok (0 + 1 / 4 * (lat2 - 0), 31 + 1 / 4 * (lon2 - 31)).
Proof.
  split; [exact cos_radians_0_neq | ].
  apply (predict_position_interpolates 0 31 20 5 8 (1 / 4)).
  exact cos_radians_0_neq.
Defined.

(** X9: two predictions in a row, each from the point the previous one
    returned, reach the same latitude as a single prediction over the sum of
    the times; their longitudes differ by the east step of the second leg
    times the difference of the inverse cosines of the two start latitudes. *)
Theorem predict_position_two_legs (lat lon ve vn t1 t2 : R) :
  math.cos (math.radians lat) <> 0 ->
  math.cos (math.radians (lat + math.degrees (arc vn t1))) <> 0 ->
  exists lat1 lat12 lon_two lon_one,
    lat1 = lat + math.degrees (arc vn t1)
    /\ ('(a, b) <- predict_position lat lon ve vn t1 ;;
        predict_position a b ve vn t2) = Ok (lat12, lon_two)
    /\ predict_position lat lon ve vn (t1 + t2) = Ok (lat12, lon_one)
    /\ lon_two - lon_one
       = math.degrees (arc ve t2)
         * (/ math.cos (math.radians lat1) - / math.cos (math.radians lat)).
Proof.
  intros Hc Hc1.
  rewrite (predict_position_runs lat lon ve vn t1) by exact Hc. cbn [bind].
  fold (arc vn t1).
  rewrite predict_position_runs by exact Hc1.
  rewrite predict_position_runs by exact Hc.
  set (lat1 := lat + math.degrees (arc vn t1)) in *.
  exists lat1. do 3 eexists.
  split; [reflexivity | ].
  split; [reflexivity | ].
  split.
  - f_equal. f_equal. unfold lat1, arc, math.degrees, Rdiv. ring.
  - unfold arc, math.degrees. pose proof PI_neq0. field. repeat split; assumption.
Qed.

Lemma degrees_0 : math.degrees 0 = 0.
Proof. unfold math.degrees. ring. Qed.

(** Three years at 5 mm/yr northwards move the latitude by less than one
    degree (by about 1.3e-7 degrees). *)
Lemma three_year_step_small : 0 < math.degrees (arc 5 3) < 1.
Proof.
  pose proof PI_RGT_0 as Hpi. pose proof PI2_1 as Hpi2.
  assert (Hlo : 0 < / PI) by (apply Rinv_0_lt_compat; lra).
  assert (Hhi : / PI < / 2) by (apply Rinv_lt_contravar; lra).
  unfold math.degrees, arc, Rdiv. lra.
Qed.

Lemma cos_radians_30_neq : math.cos (math.radians 30) <> 0.
Proof.
  assert (0 < math.cos (math.radians 30)) by (apply cos_radians_pos; lra). lra.
Qed.

Lemma cos_after_three_years_neq :
  math.cos (math.radians (30 + math.degrees (arc 5 3))) <> 0.
Proof.
  pose proof three_year_step_small as Hstep.
  assert (0 < math.cos (math.radians (30 + math.degrees (arc 5 3))))
    by (apply cos_radians_pos; lra).
  lra.
Qed.

Lemma predict_position_two_legs_witness :
  math.cos (math.radians 30) <> 0
  /\ math.cos (math.radians (30 + math.degrees (arc 5 3))) <> 0
  /\ exists lat1 lat12 lon_two lon_one,
       lat1 = 30 + math.degrees (arc 5 3)
       /\ ('(a, b) <- predict_position 30 31 20 5 3 ;;
           predict_position a b 20 5 4) = Ok (lat12, lon_two)
       /\ predict_position 30 31 20 5 (3 + 4) = Ok (lat12, lon_one)
       /\ lon_two - lon_one
          = math.degrees (arc 20 4)
            * (/ math.cos (math.radians lat1) - / math.cos (math.radians 30)).
Proof.
  split; [exact cos_radians_30_neq | split; [exact cos_after_three_years_neq | ]].
  apply (predict_position_two_legs 30 31 20 5 3 4);
    [exact cos_radians_30_neq | exact cos_after_three_years_neq].
Defined.

(** X10: the prediction is symmetric about the equator: from the mirrored
    latitude with the north velocity reversed it returns the mirrored
    latitude and the same longitude. *)
Theorem predict_position_mirror (lat lon ve vn t : R) :
  math.cos (math.radians lat) <> 0 ->
  exists lat2 lon2,
    predict_position lat lon ve vn t = Ok (lat2, lon2)
    /\ predict_position (- lat) lon ve (- vn) t = Ok (- lat2, lon2).
Proof.
  intros Hc.
  assert (Hm : math.cos (math.radians (- lat)) = math.cos (math.radians lat))
    by (rewrite radians_opp; apply cos_neg).
  do 2 eexists. rewrite !predict_position_runs by (rewrite ?Hm; exact Hc).
  split; [reflexivity | ].
  rewrite Hm. unfold math.degrees, Rdiv. f_equal. f_equal; ring.
Qed.

Lemma predict_position_mirror_witness :
  math.cos (math.radians 0) <> 0
  /\ exists lat2 lon2,
       predict_position 0 31 20 5 25 = Ok (lat2, lon2)
       /\ predict_position (- 0) 31 20 (- 5) 25 = Ok (- lat2, lon2).
Proof.
  split; [exact cos_radians_0_neq | ].
  apply (predict_position_mirror 0 31 20 5 25). exact cos_radians_0_neq.
Defined.

(** X11: the predicted latitude is not kept inside [-90, 90]: with a positive
    north velocity every start latitude between the poles is carried past 90
    degrees after a long enough time. *)
Theorem predict_position_leaves_range (lat lon ve vn : R) :
  -90 < lat < 90 -> 0 < vn ->
  exists years lat2 lon2,
    0 < years
    /\ predict_position lat lon ve vn years = Ok (lat2, lon2)
    /\ 90 < lat2.
Proof.
  intros Hlat Hvn.
  pose proof (cos_radians_pos lat Hlat) as Hc.
  pose proof PI_RGT_0 as Hpi.
  exists ((91 - lat) * (PI / 180) * 6371000 * 1000 / vn). do 2 eexists.
  split.
  { apply Rdiv_lt_0_compat; [ | exact Hvn].
    assert (0 < (91 - lat) * (PI / 180)) by (apply Rmult_lt_0_compat; lra).
    lra. }
  rewrite predict_position_runs by lra.
  split; [reflexivity | ].
  replace (lat + math.degrees
                   (vn / 1000 * ((91 - lat) * (PI / 180) * 6371000 * 1000 / vn)
                    / 6371000))
    with 91 by (unfold math.degrees; field; lra).
  lra.
Qed.

Lemma predict_position_leaves_range_witness :
  -90 < 30 < 90 /\ 0 < 5
  /\ exists years lat2 lon2,
       0 < years
       /\ predict_position 30 31 20 5 years = Ok (lat2, lon2)
       /\ 90 < lat2.
Proof.
  split; [lra | split; [lra | ]].
  apply (predict_position_leaves_range 30 31 20 5); lra.
Defined.

(** ** The elapsed time *)

(** X12: [years_between] never raises; its result is positive exactly when
    the second date is after the first, and swapping the dates gives the
    opposite number. *)
Theorem years_between_sign (d1 d2 : Z) :
  exists years,
    years_between d1 d2 = Ok years
    /\ (0 < years <-> (d1 < d2)%Z)
    /\ years_between d2 d1 = Ok (- years).
Proof.
  exists (IZR (d2 - d1) / (36525 / 100)).
  unfold years_between. rewrite !truediv_ok by lra.
  split; [reflexivity | ].
  assert (Hinv : 0 < / (36525 / 100)) by (apply Rinv_0_lt_compat; lra).
  split.
  - split.
    + intros Hy.
      assert (0 < IZR (d2 - d1)) by (unfold Rdiv in Hy; nra).
      assert (0 < d2 - d1)%Z by (apply lt_IZR; assumption). lia.
    + intros Hlt.
      assert (0 < IZR (d2 - d1)) by (apply IZR_lt; lia).
      unfold Rdiv. nra.
  - f_equal. replace (d1 - d2)%Z with (- (d2 - d1))%Z by lia.
    rewrite opp_IZR. unfold Rdiv. ring.
Qed.

(** ** The analysis of the selected location *)

Lemma velocity_of_mode_succeeds (mode : string) (lat lon elat elon omega : R) :
  exists ve vn, velocity_of_mode mode lat lon elat elon omega = Ok (ve, vn).
Proof.
  unfold velocity_of_mode. destruct (mode =? "euler")%string.
  - do 2 eexists. apply euler_to_vel_closed_form.
  - do 2 eexists. reflexivity.
Qed.

Lemma years_positive (d1 d2 : Z) :
  (d1 < d2)%Z -> 0 < IZR (d2 - d1) / (36525 / 100).
Proof.
  intros Hlt. apply Rdiv_lt_0_compat; [apply IZR_lt; lia | lra].
Qed.

(** X13: whenever the start date is before the end date and the cosine of the
    selected latitude is not zero, the analysis and its metrics are computed
    without an exception in either mode; the elapsed time is positive, the
    total movement is the elapsed time times the plate speed, and the rate
    shown under it, [displacement_mm/years], equals the plate speed. *)
Theorem analysis_rate_is_speed
  (mode : string) (start_date end_date : Z) (lat lon elat elon omega : R) :
  (start_date < end_date)%Z ->
  math.cos (math.radians lat) <> 0 ->
  exists a m,
    analyse mode start_date end_date lat lon elat elon omega = Some (Ok a)
    /\ 0 < an_years a
    /\ live_metrics a = Ok m
    /\ total_movement m = an_years a * plate_speed m
    /\ movement_rate m = plate_speed m.
Proof.
  intros Hlt Hc. unfold analyse.
  apply Z.ltb_lt in Hlt as Hgate. rewrite Hgate.
  pose proof (years_positive _ _ Hlt) as Hy.
  unfold years_between. rewrite truediv_ok by lra. cbn [bind].
  set (years := IZR (end_date - start_date) / (36525 / 100)) in *.
  destruct (velocity_of_mode_succeeds mode lat lon elat elon omega)
    as (ve & vn & ->).
  cbn [bind]. rewrite predict_position_runs by exact Hc. cbn [bind].
  unfold displacement_mm.
  rewrite math_sqrt_ok by apply sum_squares_nonneg. cbn [bind].
  do 2 eexists. split; [reflexivity | ].
  cbn [an_years]. split; [exact Hy | ].
  unfold live_metrics.
  cbn [an_years an_ve an_vn an_displacement_mm].
  rewrite math_sqrt_ok by apply sum_squares_nonneg.
  rewrite truediv_ok by lra. cbn [bind].
  split; [reflexivity | ].
  cbn [total_movement movement_rate plate_speed].
  rewrite sqrt_scaled, (Rabs_pos_eq years) by lra.
  split; [reflexivity | field; lra].
Qed.

Lemma analysis_rate_is_speed_witness :
  (730120 < 739478)%Z
  /\ math.cos (math.radians 0) <> 0
  /\ exists a m,
       analyse "station" 730120 739478 0 31 (-2) 31 (1 / 4) = Some (Ok a)
       /\ 0 < an_years a
       /\ live_metrics a = Ok m
       /\ total_movement m = an_years a * plate_speed m
       /\ movement_rate m = plate_speed m.
Proof.
  split; [lia | split; [exact cos_radians_0_neq | ]].
  apply (analysis_rate_is_speed "station" 730120 739478 0 31 (-2) 31 (1 / 4));
    [lia | exact cos_radians_0_neq].
Defined.

(** ** The time series *)

Lemma linspace_length (a b : R) (num : nat) :
  List.length (linspace a b num) = num.
Proof.
  destruct num as [ | [ | n]]; [reflexivity | reflexivity | ].
  unfold linspace. rewrite length_app, length_map, length_seq. simpl. lia.
Qed.

Lemma nth_map_default {A B : Type} (f : A -> B) (l : list A) (i : nat)
  (dA : A) (dB : B) :
  (i < List.length l)%nat -> nth i (map f l) dB = f (nth i l dA).
Proof.
  intros Hi. rewrite (nth_indep _ dB (f dA)) by (rewrite length_map; exact Hi).
  apply map_nth.
Qed.

(** The samples of [linspace] are evenly spaced from [a] to [b]. *)
Lemma linspace_nth (a b : R) (n i : nat) :
  (i <= S n)%nat ->
  nth i (linspace a b (S (S n))) 0 = a + INR i / INR (S n) * (b - a).
Proof.
  intros Hi. unfold linspace.
  assert (Hn : INR (S n) <> 0) by (apply not_0_INR; discriminate).
  destruct (Nat.eq_dec i (S n)) as [-> | Hne].
  - rewrite app_nth2 by (rewrite length_map, length_seq; lia).
    rewrite length_map, length_seq, Nat.sub_diag. cbn [nth]. field. exact Hn.
  - rewrite app_nth1 by (rewrite length_map, length_seq; lia).
    rewrite (nth_map_default _ _ _ O) by (rewrite length_seq; lia).
    rewrite seq_nth by lia. cbn [Nat.add]. field. exact Hn.
Qed.

Lemma time_series_loop_runs (lat lon ve vn : R) (time_points : list R) :
  math.cos (math.radians lat) <> 0 ->
  forall positions_lat positions_lon displacements,
    time_series_loop lat lon ve vn time_points
                     positions_lat positions_lon displacements
    = Ok (positions_lat
            ++ map (fun t => lat + math.degrees (vn / 1000 * t / 6371000))
                   time_points,
          positions_lon
            ++ map (fun t => lon + math.degrees
                                     (ve / 1000 * t
                                      / (6371000 * math.cos (math.radians lat))))
                   time_points,
          displacements
            ++ map (fun t => sqrt ((ve * t) ^ 2 + (vn * t) ^ 2)) time_points).
Proof.
  intros Hc. induction time_points as [ | t rest IH]; intros A B C.
  - cbn. rewrite !app_nil_r. reflexivity.
  - cbn [time_series_loop].
    rewrite predict_position_runs by exact Hc. cbn [bind].
    rewrite math_sqrt_ok by apply sum_squares_nonneg. cbn [bind].
    rewrite IH. cbn [map]. rewrite <- !app_assoc. reflexivity.
Qed.

Lemma INR_25 : INR 25 = 25.
Proof. simpl. lra. Qed.

(** X14: wherever the cosine of the latitude is not zero the time series is
    computed without an exception and has 26 samples; sample [i] of the
    positions divides the segment from the start to the predicted end point
    in the ratio [i/25], and sample [i] of the displacements is [i/25] of the
    total displacement: both charts are straight lines from the start (sample
    0) to the final result (sample 25). *)
Theorem time_series_is_linear (lat lon ve vn years : R) :
  math.cos (math.radians lat) <> 0 ->
  exists lat2 lon2 total positions_lat positions_lon displacements,
    predict_position lat lon ve vn years = Ok (lat2, lon2)
    /\ displacement_mm ve vn years = Ok total
    /\ time_series lat lon ve vn years
       = Ok (positions_lat, positions_lon, displacements)
    /\ List.length positions_lat = 26%nat
    /\ List.length positions_lon = 26%nat
    /\ List.length displacements = 26%nat
    /\ forall i, (i <= 25)%nat ->
         nth i positions_lat 0 = lat + INR i / 25 * (lat2 - lat)
         /\ nth i positions_lon 0 = lon + INR i / 25 * (lon2 - lon)
         /\ nth i displacements 0 = INR i / 25 * total.
Proof.
  intros Hc.
  rewrite predict_position_runs by exact Hc.
  unfold displacement_mm, time_series.
  rewrite math_sqrt_ok by apply sum_squares_nonneg.
  rewrite time_series_loop_runs by exact Hc.
  do 6 eexists.
  split; [reflexivity | ]. split; [reflexivity | ]. split; [reflexivity | ].
  cbn [app]. rewrite !length_map, linspace_length.
  split; [reflexivity | ]. split; [reflexivity | ]. split; [reflexivity | ].
  intros i Hi.
  assert (Hlen : (i < List.length (linspace 0 years 26))%nat)
    by (rewrite linspace_length; lia).
  assert (Ht : nth i (linspace 0 years 26) 0 = INR i / 25 * years).
  { rewrite linspace_nth by lia. rewrite INR_25. ring. }
  repeat split.
  - rewrite (nth_map_default _ _ _ 0) by exact Hlen.
    rewrite Ht. unfold math.degrees, Rdiv. ring.
  - rewrite (nth_map_default _ _ _ 0) by exact Hlen.
    rewrite Ht. unfold math.degrees, Rdiv. ring.
  - rewrite (nth_map_default _ _ _ 0) by exact Hlen.
    rewrite Ht, !sqrt_scaled, Rabs_mult.
    rewrite (Rabs_pos_eq (INR i / 25))
      by (apply Rmult_le_pos; [apply pos_INR | lra]).
    ring.
Qed.

Lemma time_series_is_linear_witness :
  math.cos (math.radians 0) <> 0
  /\ exists lat2 lon2 total positions_lat positions_lon displacements,
       predict_position 0 31 20 5 25 = Ok (lat2, lon2)
       /\ displacement_mm 20 5 25 = Ok total
       /\ time_series 0 31 20 5 25
          = Ok (positions_lat, positions_lon, displacements)
       /\ List.length positions_lat = 26%nat
       /\ List.length positions_lon = 26%nat
       /\ List.length displacements = 26%nat
       /\ forall i, (i <= 25)%nat ->
            nth i positions_lat 0 = 0 + INR i / 25 * (lat2 - 0)
            /\ nth i positions_lon 0 = 31 + INR i / 25 * (lon2 - 31)
            /\ nth i displacements 0 = INR i / 25 * total.
Proof.
  split; [exact cos_radians_0_neq | ].
  apply (time_series_is_linear 0 31 20 5 25). exact cos_radians_0_neq.
Defined.

(** ** The movement trail of the map *)

(** X15: the three markers of the movement trail are where the labels say:
    marker [k] (labelled with the year [k * years / 4], for k = 1, 2, 3) is
    the point [predict_position] returns for that elapsed time. *)
Theorem movement_trail_matches_labels (lat lon ve vn years : R) :
  math.cos (math.radians lat) <> 0 ->
  exists lat2 lon2 lats lons labels,
    predict_position lat lon ve vn years = Ok (lat2, lon2)
    /\ movement_trail lat lon lat2 lon2 years = Ok (lats, lons, labels)
    /\ labels = [1 * years / 4; 2 * years / 4; 3 * years / 4]
    /\ List.length lats = 3%nat
    /\ List.length lons = 3%nat
    /\ forall k, (k < 3)%nat ->
         predict_position lat lon ve vn (nth k labels 0)
         = Ok (nth k lats 0, nth k lons 0).
Proof.
  intros Hc.
  rewrite predict_position_runs by exact Hc.
  do 5 eexists. split; [reflexivity | ].
  unfold movement_trail, linspace, inner_slice.
  cbn [seq map app tl removelast comprehension].
  rewrite !truediv_ok by lra. cbn [bind].
  split; [reflexivity | ].
  split; [cbn [INR]; repeat f_equal; lra | ].
  split; [reflexivity | ]. split; [reflexivity | ].
  intros k Hk.
  destruct k as [ | [ | [ | k]]]; [ | | | lia];
    cbn [nth INR]; rewrite predict_position_runs by exact Hc;
    unfold math.degrees; f_equal; f_equal; field;
    repeat split; try exact Hc; apply PI_neq0.
Qed.

Lemma movement_trail_matches_labels_witness :
  math.cos (math.radians 0) <> 0
  /\ exists lat2 lon2 lats lons labels,
       predict_position 0 31 20 5 25 = Ok (lat2, lon2)
       /\ movement_trail 0 31 lat2 lon2 25 = Ok (lats, lons, labels)
       /\ labels = [1 * 25 / 4; 2 * 25 / 4; 3 * 25 / 4]
       /\ List.length lats = 3%nat
       /\ List.length lons = 3%nat
       /\ forall k, (k < 3)%nat ->
            predict_position 0 31 20 5 (nth k labels 0)
            = Ok (nth k lats 0, nth k lons 0).
Proof.
  split; [exact cos_radians_0_neq | ].
  apply (movement_trail_matches_labels 0 31 20 5 25). exact cos_radians_0_neq.
Defined.

(** ** The comparison of the four cities *)

Lemma comparison_loop_runs (mode : string) (elat elon omega years : R)
  (selected_name : string) (cities : list city) :
  forall comparison_data,
  exists rows,
    comparison_loop mode elat elon omega years selected_name cities comparison_data
    = Ok (comparison_data ++ rows)
    /\ Forall2 (row_of mode elat elon omega years selected_name) cities rows.
Proof.
  induction cities as [ | c rest IH]; intros acc.
  - exists []. rewrite app_nil_r. split; [reflexivity | constructor].
  - cbn [comparison_loop].
    destruct (velocity_of_mode_succeeds mode (city_lat c) (city_lon c)
                elat elon omega) as (ve & vn & Hv).
    rewrite Hv. cbn [bind].
    rewrite !math_sqrt_ok by apply sum_squares_nonneg. cbn [bind].
    match goal with
    | |- context [comparison_loop _ _ _ _ _ _ rest (acc ++ [?r])] =>
        destruct (IH (acc ++ [r])) as (rows & Hrun & Hrows); exists (r :: rows)
    end.
    split.
    + rewrite Hrun, <- app_assoc. reflexivity.
    + constructor; [ | exact Hrows].
      exists ve, vn.
      cbn [row_city row_speed row_total_movement row_selected].
      rewrite sqrt_scaled. repeat split. exact Hv.
Qed.

(** X16: the comparison never raises and has one row per city of
    [cities_data], in that order; in every row the total movement is the
    absolute elapsed time times the speed, so the points of the chart lie on
    one line through the origin; a row is marked as selected exactly when its
    city has the selected name. *)
Theorem comparison_rows (mode : string) (elat elon omega years : R)
  (selected_name : string) :
  exists rows,
    comparison mode elat elon omega years selected_name = Ok rows
    /\ map row_city rows = ["Cairo"; "Cape Town"; "Lagos"; "Nairobi"]%string
    /\ Forall (fun r => row_total_movement r = Rabs years * row_speed r
                        /\ (row_selected r = true <-> row_city r = selected_name))
              rows.
Proof.
  unfold comparison.
  destruct (comparison_loop_runs mode elat elon omega years selected_name
              cities_data []) as (rows & Hrun & Hrows).
  exists rows. split; [exact Hrun | ].
  assert (Hnames : map row_city rows = map city_name cities_data).
  { clear Hrun. induction Hrows as [ | c r cs rs (ve & vn & _ & Hn & _) _ IH];
      [reflexivity | cbn [map]; rewrite Hn, IH; reflexivity]. }
  split; [exact Hnames | ].
  clear Hrun Hnames.
  induction Hrows as [ | c r cs rs (ve & vn & _ & Hn & Hs & Hm & Hsel) _ IH];
    constructor; [ | exact IH].
  split; [rewrite Hm, Hs; reflexivity | ].
  rewrite Hsel, Hn. apply String.eqb_eq.
Qed.

(** X17: in any mode other than "euler" the four rows carry the same numbers,
    the speed [sqrt (20^2 + 5^2)] and the movement that goes with it, whatever
    the cities and the Euler pole are. *)
Theorem comparison_station_mode (mode : string) (elat elon omega years : R)
  (selected_name : string) :
  mode <> "euler"%string ->
  exists rows,
    comparison mode elat elon omega years selected_name = Ok rows
    /\ List.length rows = 4%nat
    /\ Forall (fun r => row_speed r = sqrt 425
                        /\ row_total_movement r = Rabs years * sqrt 425)
              rows.
Proof.
  intros Hmode. unfold comparison.
  destruct (comparison_loop_runs mode elat elon omega years selected_name
              cities_data []) as (rows & Hrun & Hrows).
  exists rows. split; [exact Hrun | ].
  split; [apply Forall2_length in Hrows; rewrite <- Hrows; reflexivity | ].
  clear Hrun.
  induction Hrows as [ | c r cs rs (ve & vn & Hv & _ & Hs & Hm & _) _ IH];
    constructor; [ | exact IH].
  unfold velocity_of_mode in Hv.
  destruct (String.eqb_spec mode "euler") as [E | _]; [contradiction | ].
  injection Hv as <- <-.
  replace (20 ^ 2 + 5 ^ 2) with 425 in * by lra.
  split; assumption.
Qed.

Lemma comparison_station_mode_witness :
  "station"%string <> "euler"%string
  /\ exists rows,
       comparison "station" (-2) 31 (1 / 4) 25 "Lagos" = Ok rows
       /\ List.length rows = 4%nat
       /\ Forall (fun r => row_speed r = sqrt 425
                           /\ row_total_movement r = Rabs 25 * sqrt 425)
                 rows.
Proof.
  split; [discriminate | ].
  apply (comparison_station_mode "station" (-2) 31 (1 / 4) 25 "Lagos").
  discriminate.
Defined.

(** ** The bearing and its compass letters *)

Lemma degrees_scale_pos : 0 < 180 / PI.
Proof. apply Rdiv_lt_0_compat; [lra | apply PI_RGT_0]. Qed.

Lemma degrees_lt (a b : R) : a < b -> math.degrees a < math.degrees b.
Proof.
  intros H. unfold math.degrees.
  apply Rmult_lt_compat_r; [exact degrees_scale_pos | exact H].
Qed.

Lemma degrees_le (a b : R) : a <= b -> math.degrees a <= math.degrees b.
Proof.
  intros H. unfold math.degrees.
  apply Rmult_le_compat_r; [left; exact degrees_scale_pos | exact H].
Qed.

Lemma degrees_PI : math.degrees PI = 180.
Proof. unfold math.degrees. field. apply PI_neq0. Qed.

Lemma degrees_PI2 : math.degrees (PI / 2) = 90.
Proof. unfold math.degrees. field. apply PI_neq0. Qed.

Lemma degrees_opp (a : R) : math.degrees (- a) = - math.degrees a.
Proof. unfold math.degrees. ring. Qed.

Lemma atan_pos (x : R) : 0 < x -> 0 < atan x.
Proof. intros H. rewrite <- atan_0. apply atan_increasing, H. Qed.

Lemma atan_neg (x : R) : x < 0 -> atan x < 0.
Proof. intros H. rewrite <- atan_0. apply atan_increasing, H. Qed.

Lemma quotient_sign (y x : R) :
  x <> 0 ->
  (0 < y * x -> 0 < y / x) /\ (y * x < 0 -> y / x < 0) /\ (y = 0 -> y / x = 0).
Proof.
  intros Hx.
  assert (Hq : y / x = y * x * (/ x * / x)) by (field; exact Hx).
  assert (Hp : 0 < / x * / x).
  { assert (/ x <> 0) by (apply Rinv_neq_0_compat; exact Hx). nra. }
  rewrite Hq. repeat split; intros H; [nra | nra | subst y; ring].
Qed.

(** The angle [math.atan2(vn, ve)] in each quadrant of the velocity. *)
Lemma atan2_quadrants (vn ve : R) :
  (0 < ve -> 0 <= vn -> 0 <= math_atan2 vn ve < PI / 2)
  /\ (ve <= 0 -> 0 < vn -> PI / 2 <= math_atan2 vn ve < PI)
  /\ (ve < 0 -> vn = 0 -> math_atan2 vn ve = PI)
  /\ (ve < 0 -> vn < 0 -> - PI < math_atan2 vn ve < - (PI / 2))
  /\ (0 <= ve -> vn < 0 -> - (PI / 2) <= math_atan2 vn ve < 0)
  /\ (ve = 0 -> vn = 0 -> math_atan2 vn ve = 0).
Proof.
  pose proof PI_RGT_0 as Hpi.
  pose proof (atan_bound (vn / ve)) as Hb.
  unfold math_atan2.
  destruct (Rlt_dec 0 ve) as [Hpos | Hnpos].
  - destruct (quotient_sign vn ve ltac:(lra)) as (Hq1 & Hq2 & Hq3).
    repeat split; intros; try lra.
    + destruct (Req_dec vn 0) as [E | N].
      * rewrite Hq3, atan_0 by exact E. lra.
      * left. apply atan_pos, Hq1. nra.
    + apply atan_neg, Hq2. nra.
  - destruct (Rlt_dec ve 0) as [Hneg | Hnneg].
    + destruct (quotient_sign vn ve ltac:(lra)) as (Hq1 & Hq2 & Hq3).
      destruct (Rle_dec 0 vn) as [Hy | Hy].
      * repeat split; intros; try lra.
        -- assert (atan (vn / ve) < 0) by (apply atan_neg, Hq2; nra). lra.
        -- rewrite Hq3, atan_0 by assumption. ring.
      * assert (0 < atan (vn / ve)) by (apply atan_pos, Hq1; nra).
        repeat split; intros; lra.
    + assert (ve = 0) by lra.
      destruct (Rlt_dec 0 vn) as [Hy | Hy]; [repeat split; intros; lra | ].
      destruct (Rlt_dec vn 0) as [Hy' | Hy']; repeat split; intros; lra.
Qed.

(** The bearing in each quadrant of the velocity. *)
Lemma bearing_quadrants (ve vn : R) :
  (0 < ve -> 0 <= vn -> 0 <= bearing_of ve vn < 90)
  /\ (ve <= 0 -> 0 < vn -> 90 <= bearing_of ve vn < 180)
  /\ (ve < 0 -> vn <= 0 -> 180 <= bearing_of ve vn < 270)
  /\ (0 <= ve -> vn < 0 -> 270 <= bearing_of ve vn < 360)
  /\ (ve = 0 -> vn = 0 -> bearing_of ve vn = 0).
Proof.
  pose proof PI_RGT_0 as Hpi.
  destruct (atan2_quadrants vn ve) as (Q1 & Q2 & Q3a & Q3b & Q4 & Q0).
  unfold bearing_of.
  set (a := math_atan2 vn ve) in *.
  pose proof degrees_PI as D180. pose proof degrees_PI2 as D90.
  pose proof degrees_0 as D0.
  pose proof (degrees_opp PI) as DN180. pose proof (degrees_opp (PI / 2)) as DN90.
  repeat split; intros.
  - destruct (Q1 ltac:(assumption) ltac:(assumption)) as [Hl Hu].
    apply degrees_le in Hl.
    destruct (Rlt_dec (math.degrees a) 0); lra.
  - destruct (Q1 ltac:(assumption) ltac:(assumption)) as [Hl Hu].
    apply degrees_le in Hl. apply degrees_lt in Hu.
    destruct (Rlt_dec (math.degrees a) 0); lra.
  - destruct (Q2 ltac:(assumption) ltac:(assumption)) as [Hl Hu].
    apply degrees_le in Hl.
    destruct (Rlt_dec (math.degrees a) 0); lra.
  - destruct (Q2 ltac:(assumption) ltac:(assumption)) as [Hl Hu].
    apply degrees_le in Hl. apply degrees_lt in Hu.
    destruct (Rlt_dec (math.degrees a) 0); lra.
  - destruct (Req_dec vn 0) as [E | N].
    + rewrite (Q3a ltac:(assumption) E).
      destruct (Rlt_dec (math.degrees PI) 0); lra.
    + destruct (Q3b ltac:(assumption) ltac:(lra)) as [Hl Hu].
      apply degrees_lt in Hl. apply degrees_lt in Hu.
      destruct (Rlt_dec (math.degrees a) 0); lra.
  - destruct (Req_dec vn 0) as [E | N].
    + rewrite (Q3a ltac:(assumption) E).
      destruct (Rlt_dec (math.degrees PI) 0); lra.
    + destruct (Q3b ltac:(assumption) ltac:(lra)) as [Hl Hu].
      apply degrees_lt in Hl. apply degrees_lt in Hu.
      destruct (Rlt_dec (math.degrees a) 0); lra.
  - destruct (Q4 ltac:(assumption) ltac:(assumption)) as [Hl Hu].
    apply degrees_le in Hl. apply degrees_lt in Hu.
    destruct (Rlt_dec (math.degrees a) 0); lra.
  - destruct (Q4 ltac:(assumption) ltac:(assumption)) as [Hl Hu].
    apply degrees_le in Hl. apply degrees_lt in Hu.
    destruct (Rlt_dec (math.degrees a) 0); lra.
  - rewrite (Q0 ltac:(assumption) ltac:(assumption)).
    destruct (Rlt_dec (math.degrees 0) 0); lra.
Qed.

(** X18: the bearing of the detailed data always lies between 0 and 360
    degrees, both ends allowed. (Over the reals 360 itself is not reached;
    on binary64 a tiny negative angle plus 360 rounds to 360.0, so the closed
    range is the one that holds of the page.) *)
Theorem bearing_in_range (ve vn : R) : 0 <= bearing_of ve vn <= 360.
Proof.
  destruct (bearing_quadrants ve vn) as (B1 & B2 & B3 & B4 & B0).
  destruct (Rlt_dec 0 ve) as [Hp | Hnp].
  - destruct (Rle_dec 0 vn) as [Hy | Hy].
    + specialize (B1 Hp Hy). lra.
    + specialize (B4 ltac:(lra) ltac:(lra)). lra.
  - destruct (Rlt_dec 0 vn) as [Hy | Hy].
    + specialize (B2 ltac:(lra) Hy). lra.
    + destruct (Rlt_dec ve 0) as [Hn | Hnn].
      * specialize (B3 Hn ltac:(lra)). lra.
      * destruct (Rlt_dec vn 0) as [Hy' | Hy'].
        -- specialize (B4 ltac:(lra) Hy'). lra.
        -- rewrite (B0 ltac:(lra) ltac:(lra)). lra.
Qed.





(** ** The city search *)

Lemma prefix_refl (s : string) : prefix s s = true.
Proof.
  induction s as [ | c s IH]; [reflexivity | ].
  cbn [prefix]. destruct (ascii_dec c c) as [_ | N]; [exact IH | now elim N].
Qed.

Lemma prefix_contains (a b : string) : prefix a b = true -> contains a b = true.
Proof.
  intros H. unfold contains. destruct b as [ | c b].
  - destruct a; [reflexivity | discriminate H].
  - cbn [index]. rewrite H. reflexivity.
Qed.

Lemma lookup_in (d : list (string * coords)) (k : string) (v : coords) :
  lookup d k = Some v -> In (k, v) d.
Proof.
  induction d as [ | [k' v'] d IH]; cbn [lookup]; [discriminate | ].
  destruct (String.eqb_spec k' k) as [-> | _].
  - intros [= ->]. left. reflexivity.
  - intros H. right. apply IH, H.
Qed.

Lemma lookup_key (d : list (string * coords)) (k : string) :
  In k (keys d) -> exists v, lookup d k = Some v.
Proof.
  induction d as [ | [k' v'] d IH]; cbn [keys map fst lookup In]; [tauto | ].
  intros [-> | H].
  - rewrite String.eqb_refl. eexists. reflexivity.
  - destruct (k' =? k)%string; [eexists; reflexivity | apply IH, H].
Qed.

Lemma matched_cities_are_keys (d : list (string * coords)) (city_name c : string) :
  In c (matched_cities d city_name) -> In c (keys d).
Proof. unfold matched_cities. intros H. apply filter_In in H. apply H. Qed.

Lemma firstn_subset {A : Type} (n : nat) (l : list A) (x : A) :
  In x (firstn n l) -> In x l.
Proof.
  revert l. induction n as [ | n IH]; intros [ | a l]; cbn [firstn In]; try tauto.
  intros [-> | H]; [left; reflexivity | right; apply IH, H].
Qed.

Lemma lower_nonempty (s : string) : lower s = EmptyString -> s = EmptyString.
Proof. destruct s; [reflexivity | discriminate]. Qed.

(** Every entry of the database lies strictly between the poles and inside
    the longitude range. *)
Lemma city_database_in_range :
  Forall (fun e => -90 < lat (snd e) < 90 /\ -180 <= lon (snd e) <= 180)
         city_database.
Proof.
  unfold city_database, entry.
  repeat (constructor; [cbn [snd lat lon]; lra | ]). constructor.
Qed.

Lemma city_database_names_nonempty :
  Forall (fun k => k <> EmptyString) (keys city_database).
Proof.
  unfold city_database, entry, keys. cbn [map fst].
  repeat (constructor; [discriminate | ]). constructor.
Qed.

Lemma search_own_name (d : list (string * coords)) (name city_name : string) :
  name <> EmptyString ->
  In name (keys d) ->
  lower city_name = lower name ->
  search d city_name = Matches (matched_cities d city_name)
  /\ In name (matched_cities d city_name).
Proof.
  intros Hne Hkey Hq.
  assert (Hin : In name (matched_cities d city_name)).
  { unfold matched_cities. apply filter_In. split; [exact Hkey | ].
    rewrite Hq. apply prefix_refl. }
  split; [ | exact Hin].
  unfold search. destruct city_name as [ | c q].
  - exfalso. apply Hne, lower_nonempty. symmetry. exact Hq.
  - destruct (matched_cities d (String c q)); [destruct Hin | reflexivity].
Qed.

(** X20: typing the name of a city of the database, in any mix of upper and
    lower case, finds it: the search shows the list of matches and the city
    is in it. *)
Theorem search_finds_own_name (name city_name : string) :
  In name (keys city_database) ->
  lower city_name = lower name ->
  search city_database city_name = Matches (matched_cities city_database city_name)
  /\ In name (matched_cities city_database city_name).
Proof.
  intros Hkey Hq. apply search_own_name; [ | exact Hkey | exact Hq].
  pose proof city_database_names_nonempty as Hne.
  rewrite Forall_forall in Hne. apply Hne, Hkey.
Qed.

Lemma cape_town_is_key : In "Cape Town"%string (keys city_database).
Proof.
  unfold city_database, entry, keys. cbn [map fst In].
  do 12 right. left. reflexivity.
Qed.

Lemma search_finds_own_name_witness :
  In "Cape Town"%string (keys city_database)
  /\ lower "cApE tOWN" = lower "Cape Town"
  /\ search city_database "cApE tOWN"
     = Matches (matched_cities city_database "cApE tOWN")
  /\ In "Cape Town"%string (matched_cities city_database "cApE tOWN").
Proof.
  assert (Hq : lower "cApE tOWN" = lower "Cape Town") by reflexivity.
  split; [exact cape_town_is_key | split; [exact Hq | ]].
  apply (search_finds_own_name "Cape Town" "cApE tOWN");
    [exact cape_town_is_key | exact Hq].
Defined.

(** X21: choosing any city the search offers never misses the database: the
    lookup behind the button succeeds with the coordinates stored under that
    name, the latitude is strictly between the poles and the longitude inside
    [-180, 180], so [predict_position] from that city succeeds for every
    velocity and elapsed time. *)
Theorem offered_city_is_usable (city_name selected_city : string) :
  In selected_city (matched_cities city_database city_name) ->
  exists v,
    In (selected_city, v) city_database
    /\ use_city city_database selected_city = Some (lat v, lon v, selected_city)
    /\ -90 < lat v < 90
    /\ -180 <= lon v <= 180
    /\ forall ve vn t, succeeds (predict_position (lat v) (lon v) ve vn t).
Proof.
  intros Hin. apply matched_cities_are_keys in Hin.
  destruct (lookup_key _ _ Hin) as [v Hv].
  pose proof (lookup_in _ _ _ Hv) as Hentry.
  pose proof city_database_in_range as Hrange.
  rewrite Forall_forall in Hrange.
  destruct (Hrange _ Hentry) as [Hlat Hlon]. cbn [snd] in Hlat, Hlon.
  exists v. unfold use_city. rewrite Hv.
  repeat split; try assumption; try lra.
  intros ve vn t. eexists. apply predict_position_runs.
  pose proof (cos_radians_pos _ Hlat). lra.
Qed.

Lemma matched_cities_cai : matched_cities city_database "cai" = ["Cairo"%string].
Proof. reflexivity. Qed.

Lemma offered_city_is_usable_witness :
  In "Cairo"%string (matched_cities city_database "cai")
  /\ exists v,
       In ("Cairo"%string, v) city_database
       /\ use_city city_database "Cairo" = Some (lat v, lon v, "Cairo"%string)
       /\ -90 < lat v < 90
       /\ -180 <= lon v <= 180
       /\ forall ve vn t, succeeds (predict_position (lat v) (lon v) ve vn t).
Proof.
  assert (Hin : In "Cairo"%string (matched_cities city_database "cai"))
    by (rewrite matched_cities_cai; left; reflexivity).
  split; [exact Hin | ].
  apply (offered_city_is_usable "cai" "Cairo"). exact Hin.
Defined.

Lemma search_not_found (d : list (string * coords)) (city_name : string)
  (suggested : list string) :
  search d city_name = NotFound suggested ->
  matched_cities d city_name = []
  /\ (2 < String.length city_name)%nat
  /\ suggested = suggestions d city_name.
Proof.
  unfold search.
  generalize (suggestions d city_name) as sug.
  generalize (matched_cities d city_name) as m.
  intros m sug.
  destruct city_name as [ | ch q]; [discriminate | ].
  destruct m as [ | x xs]; [ | discriminate].
  destruct (2 <? String.length (String ch q))%nat eqn:Hlen; [ | discriminate].
  intros [= <-].
  split; [reflexivity | ].
  split; [apply Nat.ltb_lt; exact Hlen | reflexivity].
Qed.

(** X22: whatever the database holds, the "not found" warning appears only
    for a query of more than two characters that no city name starts with;
    the hints under it are at most five names of the database, each
    containing the query somewhere after its first character (ignoring
    case). *)
Theorem not_found_hints (d : list (string * coords)) (city_name : string)
  (suggested : list string) :
  search d city_name = NotFound suggested ->
  matched_cities d city_name = []
  /\ (2 < String.length city_name)%nat
  /\ (List.length suggested <= 5)%nat
  /\ forall c, In c suggested ->
       In c (keys d)
       /\ contains (lower city_name) (lower c) = true
       /\ prefix (lower city_name) (lower c) = false.
Proof.
  intros Hs. apply search_not_found in Hs. destruct Hs as (Hm & Hlen & ->).
  split; [exact Hm | ]. split; [exact Hlen | ].
  split; [apply firstn_le_length | ].
  intros c Hc. apply firstn_subset in Hc. apply filter_In in Hc.
  destruct Hc as [Hkey Hcont].
  split; [exact Hkey | ]. split; [exact Hcont | ].
  destruct (prefix (lower city_name) (lower c)) eqn:Hp; [ | reflexivity].
  exfalso.
  assert (Hin : In c (matched_cities d city_name)).
  { apply filter_In. split; [exact Hkey | exact Hp]. }
  rewrite Hm in Hin. destruct Hin.
Qed.

Lemma search_bab :
  search city_database "bab" = NotFound ["Addis Ababa"; "Mbabane"]%string.
Proof. reflexivity. Qed.

Lemma not_found_hints_witness :
  search city_database "bab" = NotFound ["Addis Ababa"; "Mbabane"]%string
  /\ matched_cities city_database "bab" = []
  /\ (2 < String.length "bab")%nat
  /\ (List.length ["Addis Ababa"; "Mbabane"]%string <= 5)%nat
  /\ forall c, In c ["Addis Ababa"; "Mbabane"]%string ->
       In c (keys city_database)
       /\ contains (lower "bab") (lower c) = true
       /\ prefix (lower "bab") (lower c) = false.
Proof.
  split; [exact search_bab | ].
  apply (not_found_hints city_database "bab" ["Addis Ababa"; "Mbabane"]%string).
  exact search_bab.
Defined.
